(** * Shallow embedding of the workflow controller of [src/App.tsx]

    The React component [App] holds its session state in [useState] slots.
    Each asynchronous handler reads the values captured by its closure (the
    state at the moment the user triggered it) and writes the live state
    through the setters.  A handler is therefore modelled as a program
    [prog] built from the snapshot it captured: it performs setter
    [action]s and awaits external [call]s, whose outcomes (value or
    rejection) are supplied by an [oracle].  The interval effect that rotates
    the loading message is modelled inside [apply_action] (the effect reruns
    exactly when [isGeneratingVideo] changes) and by [elapse]. *)

From Stdlib Require Import String Ascii List Bool Arith NArith Lia.
Import ListNotations.
Open Scope string_scope.

(** ** Strings: the JavaScript string helpers used by the component *)

(** Strings of the component are modelled as their UTF-8 encoding.
    [String.prototype.trim] works on code points (every whitespace code
    point lies in the Basic Multilingual Plane, so UTF-16 code units and
    code points agree on it); [decode_utf8] recovers them, a byte that
    does not start a well-formed sequence giving U+FFFD. *)
Definition is_cont (b : N) : bool := (128 <=? b)%N && (b <? 192)%N.

Fixpoint decode_utf8 (l : list ascii) : list N :=
  match l with
  | [] => []
  | c :: r =>
      let n := N_of_ascii c in
      if (n <? 128)%N then n :: decode_utf8 r
      else if (192 <=? n)%N && (n <? 224)%N then
        match r with
        | c2 :: r2 =>
            let n2 := N_of_ascii c2 in
            if is_cont n2 then ((n - 192) * 64 + (n2 - 128))%N :: decode_utf8 r2
            else 65533%N :: decode_utf8 r
        | [] => [65533%N]
        end
      else if (224 <=? n)%N && (n <? 240)%N then
        match r with
        | c2 :: c3 :: r3 =>
            let n2 := N_of_ascii c2 in
            let n3 := N_of_ascii c3 in
            if is_cont n2 && is_cont n3 then
              ((n - 224) * 4096 + (n2 - 128) * 64 + (n3 - 128))%N
                :: decode_utf8 r3
            else 65533%N :: decode_utf8 r
        | _ => 65533%N :: decode_utf8 r
        end
      else if (240 <=? n)%N && (n <? 248)%N then
        match r with
        | c2 :: c3 :: c4 :: r4 =>
            let n2 := N_of_ascii c2 in
            let n3 := N_of_ascii c3 in
            let n4 := N_of_ascii c4 in
            if is_cont n2 && is_cont n3 && is_cont n4 then
              ((n - 240) * 262144 + (n2 - 128) * 4096 + (n3 - 128) * 64
               + (n4 - 128))%N :: decode_utf8 r4
            else 65533%N :: decode_utf8 r
        | _ => 65533%N :: decode_utf8 r
        end
      else 65533%N :: decode_utf8 r
  end.

(** The code points [trim] removes: WhiteSpace (TAB, VT, FF, SP, NBSP,
    ZWNBSP and the space separators Zs: U+1680, U+2000 to U+200A, U+202F,
    U+205F, U+3000) and LineTerminator (LF, CR, U+2028, U+2029). *)
Definition is_ws (n : N) : bool :=
  existsb (N.eqb n)
    [9; 10; 11; 12; 13; 32; 160; 5760; 8192; 8193; 8194; 8195; 8196; 8197;
     8198; 8199; 8200; 8201; 8202; 8232; 8233; 8239; 8287; 12288; 65279]%N.

Fixpoint drop_ws (l : list N) : list N :=
  match l with
  | [] => []
  | c :: r => if is_ws c then drop_ws r else l
  end.

(** [s.trim()], as a sequence of code points. *)
Definition trim (s : string) : list N :=
  rev (drop_ws (rev (drop_ws (decode_utf8 (list_ascii_of_string s))))).

(** [!s.trim()]: the trimmed string is the empty (falsy) string. *)
Definition blank (s : string) : bool :=
  match trim s with
  | [] => true
  | _ :: _ => false
  end.

(** [prefix_of p s]: [s] starts with [p]. *)
Fixpoint prefix_of (p s : string) : bool :=
  match p, s with
  | EmptyString, _ => true
  | String a p', String b s' => Ascii.eqb a b && prefix_of p' s'
  | String _ _, EmptyString => false
  end.

(** [s.includes(sub)] *)
Fixpoint includes (s sub : string) : bool :=
  prefix_of sub s ||
  match s with
  | EmptyString => false
  | String _ s' => includes s' sub
  end.

(** [s.split(',')] *)
Fixpoint split_comma (s : string) : list string :=
  match s with
  | EmptyString => [EmptyString]
  | String c s' =>
      match split_comma s' with
      | [] => [String c EmptyString]
      | w :: ws =>
          if Ascii.eqb c ","%char then EmptyString :: w :: ws
          else String c w :: ws
      end
  end.

(** [s.split(',')[1]]: [undefined] when there is no comma. *)
Definition data_of_url (s : string) : option string :=
  nth_error (split_comma s) 1.

(** Truthiness of a [string | null] slot: [null] and [""] are falsy. *)
Definition truthy (o : option string) : bool :=
  match o with
  | None => false
  | Some s => negb (String.eqb s "")
  end.

(** ** Session state *)

Inductive AspectRatio := AR_16_9 | AR_9_16.

Definition file := string.

Record state := mkState {
  logoPrompt : string;
  animationPrompt : string;
  generatedLogo : option string;
  generatedVideo : option string;
  logoToAnimate : option string;
  isGeneratingLogo : bool;
  isGeneratingVideo : bool;
  error : option string;
  aspectRatio : AspectRatio;
  hasApiKey : bool;
  videoLoadingMessage : string;
  (** the active [setInterval] of the message effect: the time it was
      registered at, or [None] when no interval is running *)
  interval : option nat;
  (** the clock, in milliseconds *)
  now : nat
}.

Definition videoLoadingMessages : list string := [
  "Warming up the animation engine...";
  "Teaching the pixels to dance...";
  "Composing a symphony of light and motion...";
  "This can take a few minutes, please be patient...";
  "Rendering the final masterpiece...";
  "Almost there, adding the final sparkle..."
].

Definition message_at (i : nat) : string := nth i videoLoadingMessages "".

Definition init : state := {|
  logoPrompt := "A minimalist, geometric fox logo, clean lines, orange and white.";
  animationPrompt := "The fox logo winks, and then futuristic digital circuits glow behind it.";
  generatedLogo := None;
  generatedVideo := None;
  logoToAnimate := None;
  isGeneratingLogo := false;
  isGeneratingVideo := false;
  error := None;
  aspectRatio := AR_16_9;
  hasApiKey := false;
  videoLoadingMessage := message_at 0;
  interval := None;
  now := 0
|}.

(** ** The rotating loading message *)

Fixpoint index_of (x : string) (l : list string) : option nat :=
  match l with
  | [] => None
  | y :: r =>
      if String.eqb x y then Some 0
      else option_map S (index_of x r)
  end.

(** The updater passed to [setVideoLoadingMessage] by the interval:
    [indexOf] gives [-1] for an unknown message, hence index 0 then. *)
Definition next_message (prev : string) : string :=
  let nextIndex :=
    match index_of prev videoLoadingMessages with
    | Some i => (i + 1) mod length videoLoadingMessages
    | None => 0
    end in
  message_at nextIndex.

Definition period : nat := 4000.

(** Number of firings in the window [(t0 + a, t0 + b]] of an interval
    registered at [t0] with the given period. *)
Definition ticks_between (t0 a b : nat) : nat :=
  (b - t0) / period - (a - t0) / period.

(** Time passes by [d] milliseconds; the running interval, if any, fires
    at every multiple of [period] after its registration. *)
Definition elapse (d : nat) (s : state) : state :=
  let msg :=
    match interval s with
    | None => videoLoadingMessage s
    | Some t0 =>
        Nat.iter (ticks_between t0 (now s) (now s + d)) next_message
          (videoLoadingMessage s)
    end in
  {| logoPrompt := logoPrompt s; animationPrompt := animationPrompt s;
     generatedLogo := generatedLogo s; generatedVideo := generatedVideo s;
     logoToAnimate := logoToAnimate s; isGeneratingLogo := isGeneratingLogo s;
     isGeneratingVideo := isGeneratingVideo s; error := error s;
     aspectRatio := aspectRatio s; hasApiKey := hasApiKey s;
     videoLoadingMessage := msg; interval := interval s; now := now s + d |}.

(** Unmounting the component runs the effect's cleanup. *)
Definition unmount (s : state) : state :=
  {| logoPrompt := logoPrompt s; animationPrompt := animationPrompt s;
     generatedLogo := generatedLogo s; generatedVideo := generatedVideo s;
     logoToAnimate := logoToAnimate s; isGeneratingLogo := isGeneratingLogo s;
     isGeneratingVideo := isGeneratingVideo s; error := error s;
     aspectRatio := aspectRatio s; hasApiKey := hasApiKey s;
     videoLoadingMessage := videoLoadingMessage s; interval := None;
     now := now s |}.

(** ** State setters *)

Inductive action :=
  | SetLogoPrompt (v : string)
  | SetAnimationPrompt (v : string)
  | SetGeneratedLogo (v : option string)
  | SetGeneratedVideo (v : option string)
  | SetLogoToAnimate (v : option string)
  | SetIsGeneratingLogo (v : bool)
  | SetIsGeneratingVideo (v : bool)
  | SetError (v : option string)
  | SetAspectRatio (v : AspectRatio)
  | SetHasApiKey (v : bool).

(** A setter call on the live state.  [setIsGeneratingVideo] with a new
    value re-renders and reruns the effect with dependency
    [[isGeneratingVideo]]: the cleanup clears the old interval, and a new
    one is registered when the flag is now [true]; with the same value
    React bails out and the effect does not rerun. *)
Definition apply_action (a : action) (s : state) : state :=
  let '(lp, ap, gl, gv, lta, igl, igv, er, ar, hk, itv) :=
    (logoPrompt s, animationPrompt s, generatedLogo s, generatedVideo s,
     logoToAnimate s, isGeneratingLogo s, isGeneratingVideo s, error s,
     aspectRatio s, hasApiKey s, interval s) in
  let '(lp, ap, gl, gv, lta, igl, igv, er, ar, hk, itv) :=
    match a with
    | SetLogoPrompt v => (v, ap, gl, gv, lta, igl, igv, er, ar, hk, itv)
    | SetAnimationPrompt v => (lp, v, gl, gv, lta, igl, igv, er, ar, hk, itv)
    | SetGeneratedLogo v => (lp, ap, v, gv, lta, igl, igv, er, ar, hk, itv)
    | SetGeneratedVideo v => (lp, ap, gl, v, lta, igl, igv, er, ar, hk, itv)
    | SetLogoToAnimate v => (lp, ap, gl, gv, v, igl, igv, er, ar, hk, itv)
    | SetIsGeneratingLogo v => (lp, ap, gl, gv, lta, v, igv, er, ar, hk, itv)
    | SetIsGeneratingVideo v =>
        if Bool.eqb v igv then (lp, ap, gl, gv, lta, igl, igv, er, ar, hk, itv)
        else (lp, ap, gl, gv, lta, igl, v, er, ar, hk,
              if v then Some (now s) else None)
    | SetError v => (lp, ap, gl, gv, lta, igl, igv, v, ar, hk, itv)
    | SetAspectRatio v => (lp, ap, gl, gv, lta, igl, igv, er, v, hk, itv)
    | SetHasApiKey v => (lp, ap, gl, gv, lta, igl, igv, er, ar, v, itv)
    end in
  {| logoPrompt := lp; animationPrompt := ap; generatedLogo := gl;
     generatedVideo := gv; logoToAnimate := lta; isGeneratingLogo := igl;
     isGeneratingVideo := igv; error := er; aspectRatio := ar;
     hasApiKey := hk; videoLoadingMessage := videoLoadingMessage s;
     interval := itv; now := now s |}.

(** ** External calls and handler programs *)

(** The awaited collaborators: [window.aistudio] and the imported
    [generateLogoImage], [generateLogoVideo] and [fileToBase64]. *)
Inductive call :=
  | HasSelectedApiKey
  | OpenSelectKey
  | GenerateLogoImage (prompt : string)
  | GenerateLogoVideo (prompt : string) (base64Data : option string)
      (aspect : AspectRatio)
  | FileToBase64 (f : file).

Definition ret_ty (c : call) : Type :=
  match c with
  | HasSelectedApiKey => bool
  | OpenSelectKey => unit
  | GenerateLogoImage _ => string
  | GenerateLogoVideo _ _ _ => string
  | FileToBase64 _ => string
  end.

(** A rejection carries the [message] property of the thrown object, if
    it has one. *)
Definition exn := option string.

Definition outcome (c : call) : Type := (exn + ret_ty c)%type.

Definition oracle := forall c : call, outcome c.

Inductive prog :=
  | Ret
  | Do (a : action) (k : prog)
  | Await (c : call) (k : outcome c -> prog).

Inductive titem :=
  | TSet (a : action)
  | TCall (c : call).

(** Running a handler to completion against the live state, recording the
    setters it calls and the calls it awaits. *)
Fixpoint run (o : oracle) (p : prog) (s : state) : state * list titem :=
  match p with
  | Ret => (s, [])
  | Do a k => let '(s', t) := run o k (apply_action a s) in (s', TSet a :: t)
  | Await c k => let '(s', t) := run o (k (o c)) s in (s', TCall c :: t)
  end.

(** Running at most [n] steps, returning the rest of the program. *)
Fixpoint run_steps (n : nat) (o : oracle) (p : prog) (s : state)
  : state * prog :=
  match n with
  | 0 => (s, p)
  | S n' =>
      match p with
      | Ret => (s, Ret)
      | Do a k => run_steps n' o k (apply_action a s)
      | Await c k => run_steps n' o (k (o c)) s
      end
  end.

(** [e.message || fallback] *)
Definition message_or (e : exn) (fallback : string) : string :=
  match e with
  | Some m => if String.eqb m "" then fallback else m
  | None => fallback
  end.

(** ** The handlers of [App] *)

(** [handleGenerateLogo], with the [logoPrompt] its closure captured. *)
Definition handleGenerateLogo (snap : state) : prog :=
  let finally_ := Do (SetIsGeneratingLogo false) Ret in
  if blank (logoPrompt snap) then
    Do (SetError (Some "Please enter a description for your logo.")) Ret
  else
    Do (SetIsGeneratingLogo true)
    (Do (SetError None)
    (Do (SetGeneratedLogo None)
    (Do (SetLogoToAnimate None)
    (Do (SetGeneratedVideo None)
    (Await (GenerateLogoImage (logoPrompt snap)) (fun r =>
       match r with
       | inr imageB64 =>
           let imageUrl := "data:image/jpeg;base64," ++ imageB64 in
           Do (SetGeneratedLogo (Some imageUrl))
           (Do (SetLogoToAnimate (Some imageUrl)) finally_)
       | inl e =>
           Do (SetError (Some (message_or e "Failed to generate logo.")))
           finally_
       end)))))).

Definition entity_not_found : string := "Requested entity was not found".

Definition reselect_message : string :=
  "API Key not found or invalid. Please re-select your API key.".

Definition video_fallback : string :=
  "An unknown error occurred during video generation.".

(** The [catch] block of [handleGenerateVideo], followed by its
    [finally]. *)
Definition video_catch (e : exn) (finally_ : prog) : prog :=
  let errorMessage := message_or e video_fallback in
  if includes errorMessage entity_not_found then
    Do (SetHasApiKey false) (Do (SetError (Some reselect_message)) finally_)
  else Do (SetError (Some errorMessage)) finally_.

(** [handleGenerateVideo], with the [logoToAnimate], [animationPrompt]
    and [aspectRatio] its closure captured. *)
Definition handleGenerateVideo (snap : state) : prog :=
  let finally_ := Do (SetIsGeneratingVideo false) Ret in
  match logoToAnimate snap with
  | Some img =>
    if String.eqb img "" then
      Do (SetError (Some "Please generate or upload a logo to animate.")) Ret
    else if blank (animationPrompt snap) then
      Do (SetError (Some "Please enter a prompt for the animation.")) Ret
    else
      Await HasSelectedApiKey (fun r =>
        match r with
        | inl e => video_catch e finally_
        | inr keySelected =>
            Do (SetHasApiKey keySelected)
            (if negb keySelected then
               Do (SetError (Some "Please select an API key to generate videos."))
                  finally_
             else
               Do (SetIsGeneratingVideo true)
               (Do (SetError None)
               (Do (SetGeneratedVideo None)
               (Await (GenerateLogoVideo (animationPrompt snap)
                         (data_of_url img) (aspectRatio snap)) (fun r' =>
                  match r' with
                  | inl e => video_catch e finally_
                  | inr videoUrl => Do (SetGeneratedVideo (Some videoUrl)) finally_
                  end)))))
        end)
  | None =>
      Do (SetError (Some "Please generate or upload a logo to animate.")) Ret
  end.

(** [handleFileChange], with [event.target.files?.[0]]. *)
Definition handleFileChange (f : option file) : prog :=
  match f with
  | None => Ret
  | Some fl =>
      Do (SetError None)
      (Await (FileToBase64 fl) (fun r =>
         match r with
         | inr base64 =>
             Do (SetLogoToAnimate (Some base64)) (Do (SetGeneratedVideo None) Ret)
         | inl _ => Do (SetError (Some "Failed to read the uploaded file.")) Ret
         end))
  end.

(** [checkApiKey] *)
Definition checkApiKey : prog :=
  Await HasSelectedApiKey (fun r =>
    match r with
    | inr keySelected => Do (SetHasApiKey keySelected) Ret
    | inl _ => Ret
    end).

(** [handleSelectKey] *)
Definition handleSelectKey : prog :=
  Await OpenSelectKey (fun r =>
    match r with
    | inr _ => Do (SetHasApiKey true) (Do (SetError None) Ret)
    | inl _ =>
        Do (SetError (Some "Failed to open API key selector. Please try again."))
           Ret
    end).

(** ** User events, each handler run to completion *)

Inductive event :=
  | EditLogoPrompt (v : string)
  | EditAnimationPrompt (v : string)
  | ClickAspectRatio (v : AspectRatio)
  | ClickGenerateLogo (o : oracle)
  | ClickGenerateVideo (o : oracle)
  | ChooseFile (f : option file) (o : oracle)
  | CheckKey (o : oracle)
  | ClickSelectKey (o : oracle)
  | Elapse (d : nat).

(** The textareas' and buttons' [onChange]/[onClick] handlers. *)
Definition exec_event (ev : event) (s : state) : state :=
  match ev with
  | EditLogoPrompt v => apply_action (SetLogoPrompt v) s
  | EditAnimationPrompt v => apply_action (SetAnimationPrompt v) s
  | ClickAspectRatio v => apply_action (SetAspectRatio v) s
  | ClickGenerateLogo o => fst (run o (handleGenerateLogo s) s)
  | ClickGenerateVideo o => fst (run o (handleGenerateVideo s) s)
  | ChooseFile f o => fst (run o (handleFileChange f) s)
  | CheckKey o => fst (run o checkApiKey s)
  | ClickSelectKey o => fst (run o handleSelectKey s)
  | Elapse d => elapse d s
  end.

(** States of the session reached by events run one after another. *)
Inductive reachable : state -> Prop :=
  | reachable_init : reachable init
  | reachable_step ev s : reachable s -> reachable (exec_event ev s).

(** Oracles answering each kind of call with a fixed outcome. *)
Definition mk_oracle (key : exn + bool) (sel : exn + unit)
  (image : exn + string) (video : exn + string) (read : exn + string)
  : oracle :=
  fun c =>
    match c as c0 return outcome c0 with
    | HasSelectedApiKey => key
    | OpenSelectKey => sel
    | GenerateLogoImage _ => image
    | GenerateLogoVideo _ _ _ => video
    | FileToBase64 _ => read
    end.

Definition ok_oracle : oracle :=
  mk_oracle (inr true) (inr tt) (inr "P") (inr "V") (inr "data:image/png;base64,F").

(** Unicode whitespace in UTF-8: U+00A0 then U+3000 (twice), and a word
    padded with U+00A0. *)
Definition nbsp : string :=
  String (ascii_of_nat 194) (String (ascii_of_nat 160) EmptyString).

Definition ideographic_space : string :=
  String (ascii_of_nat 227) (String (ascii_of_nat 128)
    (String (ascii_of_nat 128) (String (ascii_of_nat 227)
      (String (ascii_of_nat 128) (String (ascii_of_nat 128) EmptyString))))).

(** A session where the logo ["data:image/jpeg;base64,P"] was generated
    from the default prompt. *)
Definition ready : state := exec_event (ClickGenerateLogo ok_oracle) init.

(** The video call fails with the given message. *)
Definition video_fails (m : exn) : oracle :=
  mk_oracle (inr true) (inr tt) (inr "P") (inl m) (inr "F").

(** The credential provider itself rejects with the given message. *)
Definition key_throws (m : exn) : oracle :=
  mk_oracle (inl m) (inr tt) (inr "P") (inr "V") (inr "F").

(** The image call rejects with the given message. *)
Definition image_fails (m : exn) : oracle :=
  mk_oracle (inr true) (inr tt) (inl m) (inr "V") (inr "F").

Definition no_key : oracle :=
  mk_oracle (inr false) (inr tt) (inr "P") (inr "V") (inr "F").

(** [ready] after a video ["V"] was generated from it. *)
Definition animated : state := exec_event (ClickGenerateVideo ok_oracle) ready.

(** A first video generation from [ready], interrupted at its video call
    ([run_steps 5] reaches the [await] of [generateLogoVideo]), during
    which 8 seconds pass; then the call returns and the run completes. *)
Definition first_generation : state * prog :=
  run_steps 5 ok_oracle (handleGenerateVideo ready) ready.

Definition after_first_generation : state :=
  fst (run ok_oracle (snd first_generation)
         (elapse 8000 (fst first_generation))).

(** A second generation, at the same point of its run. *)
Definition second_generation : state :=
  fst (run_steps 5 ok_oracle (handleGenerateVideo after_first_generation)
         after_first_generation).

(** The calls awaited in a trace, in order. *)
Fixpoint calls_of (t : list titem) : list call :=
  match t with
  | [] => []
  | TCall c :: t' => c :: calls_of t'
  | TSet _ :: t' => calls_of t'
  end.

(** ** Interleaved runs

    The handlers are asynchronous: while one awaits, the user can edit,
    start another handler, and the interval can fire.  [live s ps] holds
    for a live state [s] with the pending handler runs [ps]; a started
    handler captures the state of the render it was triggered from. *)
Inductive started (s : state) : prog -> Prop :=
  | started_logo : started s (handleGenerateLogo s)
  | started_video : started s (handleGenerateVideo s)
  | started_file f : started s (handleFileChange f)
  | started_check : started s checkApiKey
  | started_select : started s handleSelectKey.

(** The synchronous [onChange]/[onClick] setters of the form. *)
Inductive user_edit : action -> Prop :=
  | edit_logo v : user_edit (SetLogoPrompt v)
  | edit_animation v : user_edit (SetAnimationPrompt v)
  | edit_aspect v : user_edit (SetAspectRatio v).

Inductive live : state -> list prog -> Prop :=
  | live_init : live init []
  | live_start s ps p : started s p -> live s ps -> live s (p :: ps)
  | live_edit s ps a : user_edit a -> live s ps -> live (apply_action a s) ps
  | live_do s pre post a k :
      live s (pre ++ Do a k :: post) -> live (apply_action a s) (pre ++ k :: post)
  | live_await s pre post c k (r : outcome c) :
      live s (pre ++ Await c k :: post) -> live s (pre ++ k r :: post)
  | live_ret s pre post : live s (pre ++ Ret :: post) -> live s (pre ++ post)
  | live_elapse s ps d : live s ps -> live (elapse d s) ps.

(** The first generation of [first_generation], 8 seconds into its video
    call. *)
Definition mid_generation : state := elapse 8000 (fst first_generation).

(** ** Lemmas about the embedding *)

(** Case analysis on everything a handler run branches on: the oracle's
    answers, boolean tests and the captured option slots. *)
Ltac run_cases :=
  repeat first
    [ progress simpl
    | progress unfold apply_action
    | match goal with
      | H : ?x = _ |- context [?x] => progress rewrite H
      | |- context [?o ?c] =>
          match type of o with oracle => destruct (o c) end
      | |- context [if ?b then _ else _] =>
          let E := fresh "E" in destruct b eqn:E
      | |- context [match ?x with Some _ => _ | None => _ end] =>
          let E := fresh "E" in destruct x eqn:E
      end ].

Lemma apply_action_now a s : now (apply_action a s) = now s.
Proof.
  destruct a; unfold apply_action; simpl; try reflexivity.
  destruct (Bool.eqb v (isGeneratingVideo s)); reflexivity.
Qed.

Lemma setIsGeneratingVideo_flag b s :
  isGeneratingVideo (apply_action (SetIsGeneratingVideo b) s) = b.
Proof.
  unfold apply_action; simpl.
  destruct b, (isGeneratingVideo s); reflexivity.
Qed.

(** Outside a handler run, both busy flags are down and no interval is
    registered. *)
Definition idle (s : state) : Prop :=
  isGeneratingLogo s = false /\ isGeneratingVideo s = false /\
  interval s = None.

Lemma idle_exec_event ev s : idle s -> idle (exec_event ev s).
Proof.
  intros (HL & HV & HI). unfold idle.
  destruct ev; simpl.
  - rewrite HL, HV, HI; auto.
  - rewrite HL, HV, HI; auto.
  - rewrite HL, HV, HI; auto.
  - unfold handleGenerateLogo. run_cases; auto.
  - unfold handleGenerateVideo, video_catch. run_cases; auto.
  - unfold handleFileChange. run_cases; auto.
  - unfold checkApiKey. run_cases; auto.
  - unfold handleSelectKey. run_cases; auto.
  - unfold elapse. rewrite HI; simpl; auto.
Qed.

Lemma reachable_idle s : reachable s -> idle s.
Proof.
  induction 1.
  - repeat split.
  - now apply idle_exec_event.
Qed.

Lemma message_or_signature m fb :
  includes m entity_not_found = true -> message_or (Some m) fb = m.
Proof.
  destruct m as [|c m]; simpl; [discriminate | reflexivity].
Qed.

Lemma reselect_mentions_reselect : includes reselect_message "re-select" = true.
Proof. reflexivity. Qed.

(** [trim] on Unicode whitespace, as in JavaScript:
    [' \u00a0'.trim() === ''], ['\u3000\u3000'.trim() === ''],
    ['\u00a0a\u00a0'.trim() === 'a']. *)
Example blank_nbsp : blank (" " ++ nbsp) = true.
Proof. reflexivity. Qed.

Example blank_ideographic : blank ideographic_space = true.
Proof. reflexivity. Qed.

Example trim_padded : trim (nbsp ++ "a" ++ nbsp) = [97%N].
Proof. reflexivity. Qed.

(** ** Busy flags *)

(** C2: from any state of the session, [handleGenerateLogo] and
    [handleGenerateVideo] end with their busy flag down, whatever the
    validation result and whatever the collaborators answer or throw. *)
Theorem busy_flags_released (s : state) (o : oracle) :
  reachable s ->
  isGeneratingLogo (fst (run o (handleGenerateLogo s) s)) = false /\
  isGeneratingVideo (fst (run o (handleGenerateVideo s) s)) = false.
Proof.
  intros Hr. destruct (reachable_idle s Hr) as (HL & HV & _).
  split.
  - unfold handleGenerateLogo. run_cases; reflexivity.
  - unfold handleGenerateVideo, video_catch. run_cases; reflexivity.
Qed.

Lemma busy_flags_released_witness :
  reachable ready /\
  isGeneratingLogo (fst (run (video_fails None) (handleGenerateLogo ready) ready)) = false /\
  isGeneratingVideo (fst (run (video_fails None) (handleGenerateVideo ready) ready)) = false.
Proof.
  assert (H : reachable ready) by (apply reachable_step, reachable_init).
  split; [exact H | apply (busy_flags_released ready (video_fails None) H)].
Defined.

(** ** The credential re-check *)

(** C3: when the provider reports no credential at the re-check, no video
    call is made and the busy flag is never raised, whatever [hasApiKey]
    was; once past validation the run is exactly: query the provider,
    store its answer, report the missing key, and the [finally] that
    leaves the flag down. *)
Theorem video_requires_fresh_credential (s : state) (o : oracle) :
  o HasSelectedApiKey = inr false ->
  let '(s', t) := run o (handleGenerateVideo s) s in
  (forall p d a, ~ In (TCall (GenerateLogoVideo p d a)) t) /\
  ~ In (TSet (SetIsGeneratingVideo true)) t /\
  (truthy (logoToAnimate s) = true -> blank (animationPrompt s) = false ->
   isGeneratingVideo s' = false /\
   t = [TCall HasSelectedApiKey; TSet (SetHasApiKey false);
        TSet (SetError (Some "Please select an API key to generate videos."));
        TSet (SetIsGeneratingVideo false)]).
Proof.
  intros Hk. unfold handleGenerateVideo, video_catch.
  destruct (isGeneratingVideo s) eqn:HV;
    run_cases; repeat split; intros; repeat split; simpl in *;
    intuition congruence.
Qed.

Lemma video_requires_fresh_credential_witness :
  no_key HasSelectedApiKey = inr false /\
  let '(s', t) := run no_key (handleGenerateVideo ready) ready in
  (forall p d a, ~ In (TCall (GenerateLogoVideo p d a)) t) /\
  ~ In (TSet (SetIsGeneratingVideo true)) t /\
  (truthy (logoToAnimate ready) = true -> blank (animationPrompt ready) = false ->
   isGeneratingVideo s' = false /\
   t = [TCall HasSelectedApiKey; TSet (SetHasApiKey false);
        TSet (SetError (Some "Please select an API key to generate videos."));
        TSet (SetIsGeneratingVideo false)]).
Proof.
  split; [reflexivity | apply (video_requires_fresh_credential ready no_key); reflexivity].
Defined.

(** C9: when the re-check finds no credential, the provider's answer is
    stored: [hasApiKey] ends [false], next to the missing-key error. *)
Theorem recheck_demotes_credential (s : state) (o : oracle) :
  truthy (logoToAnimate s) = true ->
  blank (animationPrompt s) = false ->
  o HasSelectedApiKey = inr false ->
  hasApiKey (fst (run o (handleGenerateVideo s) s)) = false /\
  error (fst (run o (handleGenerateVideo s) s))
    = Some "Please select an API key to generate videos.".
Proof.
  intros Hl Hp Hk. unfold handleGenerateVideo, video_catch.
  destruct (logoToAnimate s) as [img|]; [|discriminate].
  simpl in Hl. destruct (String.eqb img "") eqn:Himg; [discriminate|].
  destruct (isGeneratingVideo s) eqn:HV; run_cases; auto.
Qed.

Lemma recheck_demotes_credential_witness :
  (truthy (logoToAnimate ready) = true /\
   blank (animationPrompt ready) = false /\
   no_key HasSelectedApiKey = inr false) /\
  hasApiKey (fst (run no_key (handleGenerateVideo ready) ready)) = false /\
  error (fst (run no_key (handleGenerateVideo ready) ready))
    = Some "Please select an API key to generate videos.".
Proof.
  split; [repeat split; reflexivity|].
  apply (recheck_demotes_credential ready no_key); reflexivity.
Defined.

(** ** Failures of the video call *)

(** C4: a rejected video call whose message contains the entity-not-found
    signature leaves [hasApiKey] false and the re-selection message in
    [error], although the run started after a positive credential check;
    any other rejection is surfaced as [e.message], or the generic fallback
    when the message is absent or empty.  The busy flag ends down. *)
Theorem video_failure_classified (s : state) (o : oracle) img e :
  logoToAnimate s = Some img -> img <> "" ->
  blank (animationPrompt s) = false ->
  o HasSelectedApiKey = inr true ->
  o (GenerateLogoVideo (animationPrompt s) (data_of_url img) (aspectRatio s))
    = inl e ->
  let s' := fst (run o (handleGenerateVideo s) s) in
  (forall m, e = Some m -> includes m entity_not_found = true ->
     hasApiKey s' = false /\ error s' = Some reselect_message) /\
  (includes (message_or e video_fallback) entity_not_found = false ->
     hasApiKey s' = true /\ error s' = Some (message_or e video_fallback)) /\
  isGeneratingVideo s' = false /\
  includes reselect_message "re-select" = true.
Proof.
  intros Hl Himg Hp Hk Hv s'. subst s'.
  apply String.eqb_neq in Himg.
  unfold handleGenerateVideo, video_catch. rewrite Hl, Himg.
  destruct (isGeneratingVideo s) eqn:HV; run_cases;
    repeat split; intros; subst;
    try match goal with
        | H : includes ?m entity_not_found = true |- _ =>
            rewrite (message_or_signature m) in *; congruence
        end; auto; congruence.
Qed.

Lemma video_failure_classified_witness :
  (logoToAnimate ready = Some "data:image/jpeg;base64,P" /\
   "data:image/jpeg;base64,P" <> "" /\
   blank (animationPrompt ready) = false /\
   video_fails (Some entity_not_found) HasSelectedApiKey = inr true /\
   video_fails (Some entity_not_found)
     (GenerateLogoVideo (animationPrompt ready)
        (data_of_url "data:image/jpeg;base64,P") (aspectRatio ready))
     = inl (Some entity_not_found)) /\
  let s' := fst (run (video_fails (Some entity_not_found))
                   (handleGenerateVideo ready) ready) in
  (forall m, Some entity_not_found = Some m ->
     includes m entity_not_found = true ->
     hasApiKey s' = false /\ error s' = Some reselect_message) /\
  (includes (message_or (Some entity_not_found) video_fallback)
     entity_not_found = false ->
     hasApiKey s' = true /\
     error s' = Some (message_or (Some entity_not_found) video_fallback)) /\
  isGeneratingVideo s' = false /\
  includes reselect_message "re-select" = true.
Proof.
  split; [repeat split; try reflexivity; discriminate|].
  apply (video_failure_classified ready (video_fails (Some entity_not_found))
           "data:image/jpeg;base64,P" (Some entity_not_found));
    try reflexivity; discriminate.
Defined.

(** ** The credential provider throwing *)

(** C10 (as claimed, refuted): when [hasSelectedApiKey] rejects with the
    entity-not-found message, [error] does not hold the thrown message but
    the re-selection message, since the rejection reaches the same [catch]
    as a failed video call. *)
Lemma provider_throw_counterexample :
  let s' := fst (run (key_throws (Some entity_not_found))
                   (handleGenerateVideo ready) ready) in
  error s' = Some reselect_message /\ error s' <> Some entity_not_found.
Proof.
  split; [reflexivity | simpl; discriminate].
Qed.

(** C10 (amended): when the provider query itself rejects with [e], no
    video call is made, the busy flag is never raised and ends down,
    [generatedVideo] is left as it was, and [e] goes through the [catch] of
    the video call: [error] is the re-selection message (with [hasApiKey]
    demoted) when [e.message || fallback] contains the entity-not-found
    signature, and [e.message || fallback] otherwise. *)
Theorem provider_throw_handled (s : state) (o : oracle) e :
  truthy (logoToAnimate s) = true ->
  blank (animationPrompt s) = false ->
  o HasSelectedApiKey = inl e ->
  let '(s', t) := run o (handleGenerateVideo s) s in
  (forall p d a, ~ In (TCall (GenerateLogoVideo p d a)) t) /\
  ~ In (TSet (SetIsGeneratingVideo true)) t /\
  isGeneratingVideo s' = false /\
  generatedVideo s' = generatedVideo s /\
  (if includes (message_or e video_fallback) entity_not_found
   then error s' = Some reselect_message /\ hasApiKey s' = false
   else error s' = Some (message_or e video_fallback) /\
        hasApiKey s' = hasApiKey s).
Proof.
  intros Hl Hp Hk. unfold handleGenerateVideo, video_catch.
  destruct (logoToAnimate s) as [img|]; [|discriminate].
  simpl in Hl. destruct (String.eqb img "") eqn:Himg; [discriminate|].
  destruct (isGeneratingVideo s) eqn:HV; run_cases;
    repeat split; intros; simpl in *; intuition congruence.
Qed.

Lemma provider_throw_handled_witness :
  (truthy (logoToAnimate ready) = true /\
   blank (animationPrompt ready) = false /\
   key_throws (Some "boom") HasSelectedApiKey = inl (Some "boom")) /\
  let '(s', t) := run (key_throws (Some "boom")) (handleGenerateVideo ready) ready in
  (forall p d a, ~ In (TCall (GenerateLogoVideo p d a)) t) /\
  ~ In (TSet (SetIsGeneratingVideo true)) t /\
  isGeneratingVideo s' = false /\
  generatedVideo s' = generatedVideo ready /\
  (if includes (message_or (Some "boom") video_fallback) entity_not_found
   then error s' = Some reselect_message /\ hasApiKey s' = false
   else error s' = Some (message_or (Some "boom") video_fallback) /\
        hasApiKey s' = hasApiKey ready).
Proof.
  split; [repeat split; reflexivity|].
  apply (provider_throw_handled ready (key_throws (Some "boom")) (Some "boom"));
    reflexivity.
Defined.

(** ** [handleGenerateLogo] *)

(** C5: for a prompt that is empty after trimming (ASCII or Unicode
    whitespace only), [handleGenerateLogo] fails validation: its whole run
    is one setter, [setError] with the validation message (the
    ValidationError surfaced in the error slot), with no call and no busy
    flag raised; [generatedLogo], [isGeneratingLogo] and every other slot
    keep their values. *)
Theorem blank_logo_prompt_only_sets_error (s : state) (o : oracle) :
  blank (logoPrompt s) = true ->
  let msg := "Please enter a description for your logo." in
  run o (handleGenerateLogo s) s
    = (apply_action (SetError (Some msg)) s, [TSet (SetError (Some msg))]) /\
  error (fst (run o (handleGenerateLogo s) s)) = Some msg /\
  generatedLogo (fst (run o (handleGenerateLogo s) s)) = generatedLogo s /\
  isGeneratingLogo (fst (run o (handleGenerateLogo s) s)) = isGeneratingLogo s.
Proof.
  intros Hb msg. unfold handleGenerateLogo. rewrite Hb.
  repeat split; reflexivity.
Qed.

Lemma blank_logo_prompt_only_sets_error_witness :
  let s := exec_event (EditLogoPrompt ideographic_space) init in
  blank (logoPrompt s) = true /\
  let msg := "Please enter a description for your logo." in
  run ok_oracle (handleGenerateLogo s) s
    = (apply_action (SetError (Some msg)) s, [TSet (SetError (Some msg))]) /\
  error (fst (run ok_oracle (handleGenerateLogo s) s)) = Some msg /\
  generatedLogo (fst (run ok_oracle (handleGenerateLogo s) s)) = generatedLogo s /\
  isGeneratingLogo (fst (run ok_oracle (handleGenerateLogo s) s))
    = isGeneratingLogo s.
Proof.
  intros s. split; [reflexivity|].
  apply (blank_logo_prompt_only_sets_error s ok_oracle); reflexivity.
Defined.

(** C6: when the image call returns [imageB64], the data URL built from it
    is stored as both [generatedLogo] and [logoToAnimate]; [generatedVideo]
    and [error] are cleared and the busy flag is down. *)
Theorem logo_success_sets_both (s : state) (o : oracle) imageB64 :
  blank (logoPrompt s) = false ->
  o (GenerateLogoImage (logoPrompt s)) = inr imageB64 ->
  let s' := fst (run o (handleGenerateLogo s) s) in
  generatedLogo s' = Some ("data:image/jpeg;base64," ++ imageB64) /\
  logoToAnimate s' = generatedLogo s' /\
  generatedVideo s' = None /\
  error s' = None /\
  isGeneratingLogo s' = false.
Proof.
  intros Hb Hi s'. subst s'. unfold handleGenerateLogo. rewrite Hb.
  simpl. rewrite Hi. repeat split.
Qed.

Lemma logo_success_sets_both_witness :
  let s := exec_event (EditLogoPrompt "red circle") init in
  (blank (logoPrompt s) = false /\
   ok_oracle (GenerateLogoImage (logoPrompt s)) = inr "P") /\
  let s' := fst (run ok_oracle (handleGenerateLogo s) s) in
  generatedLogo s' = Some ("data:image/jpeg;base64," ++ "P") /\
  logoToAnimate s' = generatedLogo s' /\
  generatedVideo s' = None /\
  error s' = None /\
  isGeneratingLogo s' = false.
Proof.
  intros s. split; [split; reflexivity|].
  apply (logo_success_sets_both s ok_oracle "P"); reflexivity.
Defined.

(** ** [handleFileChange] *)

(** C7: once a file is chosen, a successful read overwrites
    [logoToAnimate] with the encoded file and clears [generatedVideo] and
    [error], whatever they held; a failed read leaves the fixed
    read-failure message in [error]. *)
Theorem file_change_effects (s : state) (o : oracle) (f : file) :
  let s' := fst (run o (handleFileChange (Some f)) s) in
  match o (FileToBase64 f) with
  | inr base64 =>
      logoToAnimate s' = Some base64 /\ generatedVideo s' = None /\
      error s' = None
  | inl _ => error s' = Some "Failed to read the uploaded file."
  end.
Proof.
  intros s'. subst s'. unfold handleFileChange. simpl.
  destruct (o (FileToBase64 f)); simpl; auto.
Qed.

(** ** The animation input and [generatedVideo] *)

(** C1 (as claimed, refuted): editing [animationPrompt] after a video was
    generated keeps [generatedVideo], which was made from the old prompt. *)
Lemma prompt_edit_keeps_video_counterexample :
  let s := exec_event (EditAnimationPrompt "spin") animated in
  generatedVideo s = Some "V" /\
  animationPrompt s = "spin" /\
  In (TCall (GenerateLogoVideo (animationPrompt ready) (Some "P") AR_16_9))
     (snd (run ok_oracle (handleGenerateVideo ready) ready)) /\
  animationPrompt ready <> "spin".
Proof.
  repeat split; [vm_compute; tauto | vm_compute; discriminate].
Qed.

(** C1 (amended): an edit of [animationPrompt] leaves [generatedVideo] as
    it is; [handleGenerateLogo] past validation and a successful
    [handleFileChange] clear it; a successful [handleGenerateVideo] stores
    the video returned for the [logoToAnimate], [animationPrompt] and
    [aspectRatio] current when it was triggered. *)
Theorem animation_input_and_video (s : state) (o : oracle) :
  (forall v, generatedVideo (exec_event (EditAnimationPrompt v) s)
             = generatedVideo s) /\
  (blank (logoPrompt s) = false ->
   generatedVideo (exec_event (ClickGenerateLogo o) s) = None) /\
  (forall f, match o (FileToBase64 f) with
             | inr _ => generatedVideo (exec_event (ChooseFile (Some f) o) s) = None
             | inl _ => True
             end) /\
  (forall img v,
     logoToAnimate s = Some img -> img <> "" ->
     blank (animationPrompt s) = false ->
     o HasSelectedApiKey = inr true ->
     o (GenerateLogoVideo (animationPrompt s) (data_of_url img) (aspectRatio s))
       = inr v ->
     generatedVideo (exec_event (ClickGenerateVideo o) s) = Some v).
Proof.
  repeat split.
  - intros Hb. simpl. unfold handleGenerateLogo. rewrite Hb. simpl.
    destruct (o (GenerateLogoImage (logoPrompt s))); reflexivity.
  - intros f. simpl. destruct (o (FileToBase64 f)); reflexivity.
  - intros img v Hl Himg Hp Hk Hv. simpl. unfold handleGenerateVideo.
    apply String.eqb_neq in Himg. rewrite Hl, Himg, Hp. simpl.
    rewrite Hk. simpl. rewrite Hv.
    unfold apply_action; simpl.
    destruct (isGeneratingVideo s); reflexivity.
Qed.

Lemma animation_input_and_video_witness :
  (blank (logoPrompt ready) = false /\
   logoToAnimate ready = Some "data:image/jpeg;base64,P" /\
   "data:image/jpeg;base64,P" <> "" /\
   blank (animationPrompt ready) = false /\
   ok_oracle HasSelectedApiKey = inr true /\
   ok_oracle (GenerateLogoVideo (animationPrompt ready)
     (data_of_url "data:image/jpeg;base64,P") (aspectRatio ready)) = inr "V") /\
  generatedVideo (exec_event (ClickGenerateLogo ok_oracle) ready) = None /\
  generatedVideo (exec_event (ClickGenerateVideo ok_oracle) ready) = Some "V".
Proof.
  destruct (animation_input_and_video ready ok_oracle) as (_ & Hl & _ & Hv).
  split; [repeat split; try reflexivity; discriminate|].
  split; [apply Hl; reflexivity|].
  apply (Hv "data:image/jpeg;base64,P"); try reflexivity; discriminate.
Defined.

(** ** The rotating loading message *)

(** The effect cleanup when the flag goes down. *)
Lemma clear_video_flag s :
  isGeneratingVideo s = true ->
  interval (apply_action (SetIsGeneratingVideo false) s) = None /\
  videoLoadingMessage (apply_action (SetIsGeneratingVideo false) s)
    = videoLoadingMessage s.
Proof.
  intros H. unfold apply_action. simpl. rewrite H. split; reflexivity.
Qed.

Lemma next_message_wraps i :
  next_message (message_at (i mod 6)) = message_at (S i mod 6).
Proof.
  replace (S i) with (i + 1) by lia.
  rewrite (Nat.Div0.add_mod i 1 6).
  assert (Hk : i mod 6 < 6) by (apply Nat.mod_upper_bound; discriminate).
  destruct (i mod 6) as [|[|[|[|[|[|k]]]]]]; try reflexivity; lia.
Qed.

(** C8 (as claimed, refuted): the message is not reset when a generation
    begins.  A first generation lasting 8 seconds leaves the third message
    shown; when the next generation is running, the message is still the
    third one, not the first. *)
Lemma second_generation_counterexample :
  isGeneratingVideo after_first_generation = false /\
  videoLoadingMessage after_first_generation = message_at 2 /\
  isGeneratingVideo second_generation = true /\
  videoLoadingMessage second_generation = message_at 2 /\
  message_at 2 <> message_at 0.
Proof.
  repeat split; vm_compute; try reflexivity; discriminate.
Qed.

(** C8 (amended): when [isGeneratingVideo] becomes true, an interval is
    registered and the message is left as it was (the first message only
    in a fresh session); after [d] milliseconds the message has advanced
    [d / 4000] times through the fixed list, wrapping around; once the
    flag is cleared, or the component unmounts, the interval is gone and
    time no longer changes the message. *)
Theorem loading_message_timer (s : state) d d' :
  isGeneratingVideo s = false ->
  let s1 := apply_action (SetIsGeneratingVideo true) s in
  let s2 := elapse d s1 in
  let s3 := apply_action (SetIsGeneratingVideo false) s2 in
  interval s1 = Some (now s) /\
  videoLoadingMessage s1 = videoLoadingMessage s /\
  videoLoadingMessage s2
    = Nat.iter (d / period) next_message (videoLoadingMessage s) /\
  interval s3 = None /\
  videoLoadingMessage (elapse d' s3) = videoLoadingMessage s2 /\
  interval (unmount s2) = None /\
  videoLoadingMessage (elapse d' (unmount s2)) = videoLoadingMessage s2 /\
  (forall i, next_message (message_at (i mod 6)) = message_at (S i mod 6)) /\
  videoLoadingMessage init = message_at 0.
Proof.
  intros HV s1 s2 s3.
  assert (H1 : interval s1 = Some (now s) /\ now s1 = now s /\
               isGeneratingVideo s1 = true /\
               videoLoadingMessage s1 = videoLoadingMessage s).
  { subst s1. unfold apply_action. simpl. rewrite HV. simpl. auto. }
  destruct H1 as (HI1 & HN1 & HV1 & HM1).
  assert (H2 : videoLoadingMessage s2
               = Nat.iter (d / period) next_message (videoLoadingMessage s)).
  { subst s2. unfold elapse. rewrite HI1. simpl. rewrite HN1, HM1.
    unfold ticks_between.
    replace (now s + d - now s) with d by lia.
    rewrite Nat.sub_diag, Nat.Div0.div_0_l, Nat.sub_0_r. reflexivity. }
  assert (H3 : interval s3 = None /\
               videoLoadingMessage s3 = videoLoadingMessage s2).
  { subst s3. apply clear_video_flag. subst s2. exact HV1. }
  destruct H3 as (HI3 & HM3).
  repeat split; auto;
    try (intros i; apply next_message_wraps).
  unfold elapse. rewrite HI3. simpl. exact HM3.
Qed.

Lemma loading_message_timer_witness :
  isGeneratingVideo ready = false /\
  let s1 := apply_action (SetIsGeneratingVideo true) ready in
  let s2 := elapse 8000 s1 in
  let s3 := apply_action (SetIsGeneratingVideo false) s2 in
  interval s1 = Some (now ready) /\
  videoLoadingMessage s1 = videoLoadingMessage ready /\
  videoLoadingMessage s2
    = Nat.iter (8000 / period) next_message (videoLoadingMessage ready) /\
  interval s3 = None /\
  videoLoadingMessage (elapse 4000 s3) = videoLoadingMessage s2 /\
  interval (unmount s2) = None /\
  videoLoadingMessage (elapse 4000 (unmount s2)) = videoLoadingMessage s2 /\
  (forall i, next_message (message_at (i mod 6)) = message_at (S i mod 6)) /\
  videoLoadingMessage init = message_at 0.
Proof.
  split; [reflexivity|].
  apply (loading_message_timer ready 8000 4000); reflexivity.
Defined.

(** * Further properties of [App] *)


Lemma apply_action_message a s :
  videoLoadingMessage (apply_action a s) = videoLoadingMessage s.
Proof.
  destruct a; unfold apply_action; simpl; try reflexivity.
  destruct (Bool.eqb v (isGeneratingVideo s)); reflexivity.
Qed.

(** No handler writes the loading message or moves the clock. *)
Lemma run_keeps_message_and_clock (o : oracle) p s :
  videoLoadingMessage (fst (run o p s)) = videoLoadingMessage s /\
  now (fst (run o p s)) = now s.
Proof.
  revert s. induction p as [| a k IH | c k IH]; intros s; simpl.
  - auto.
  - destruct (run o k (apply_action a s)) as [s' t] eqn:E.
    specialize (IH (apply_action a s)). rewrite E in IH. simpl in *.
    rewrite apply_action_now, apply_action_message in IH. exact IH.
  - destruct (run o (k (o c)) s) as [s' t] eqn:E.
    specialize (IH (o c) s). rewrite E in IH. exact IH.
Qed.

(** ** [checkApiKey], run on mount *)

(** X1: the mount-time check stores the provider's answer in [hasApiKey];
    when the provider rejects, the state is left exactly as it was. *)
Theorem check_api_key_effect (s : state) (o : oracle) :
  match o HasSelectedApiKey with
  | inr b => fst (run o checkApiKey s) = apply_action (SetHasApiKey b) s
  | inl _ => fst (run o checkApiKey s) = s
  end.
Proof.
  unfold checkApiKey. simpl.
  destruct (o HasSelectedApiKey); simpl; [destruct s|]; reflexivity.
Qed.

(** ** [handleSelectKey] *)

(** X2: selecting a key never queries the provider; when the selector
    opens, [hasApiKey] becomes true and [error] is cleared (optimistic);
    when it fails, the fixed selector message is stored and [hasApiKey]
    keeps its value. *)
Theorem select_key_effect (s : state) (o : oracle) :
  calls_of (snd (run o handleSelectKey s)) = [OpenSelectKey] /\
  match o OpenSelectKey with
  | inr _ =>
      hasApiKey (fst (run o handleSelectKey s)) = true /\
      error (fst (run o handleSelectKey s)) = None
  | inl _ =>
      hasApiKey (fst (run o handleSelectKey s)) = hasApiKey s /\
      error (fst (run o handleSelectKey s))
        = Some "Failed to open API key selector. Please try again."
  end.
Proof.
  unfold handleSelectKey. simpl.
  destruct (o OpenSelectKey); simpl; auto.
Qed.

(** ** Validation in [handleGenerateVideo] *)

(** X3: with no logo to animate ([null] or [""]) or with an animation
    prompt that is empty after trimming, [handleGenerateVideo] makes no
    call and only writes its validation message into [error]; the missing
    logo is reported first. *)
Theorem video_validation (s : state) (o : oracle) :
  truthy (logoToAnimate s) = false \/ blank (animationPrompt s) = true ->
  let msg := if truthy (logoToAnimate s)
             then "Please enter a prompt for the animation."
             else "Please generate or upload a logo to animate." in
  run o (handleGenerateVideo s) s
    = (apply_action (SetError (Some msg)) s, [TSet (SetError (Some msg))]).
Proof.
  intros H msg. subst msg. unfold handleGenerateVideo.
  destruct (logoToAnimate s) as [img|]; simpl in *; [|reflexivity].
  destruct (String.eqb img "") eqn:E; simpl in *; [reflexivity|].
  destruct H as [H|H]; [discriminate|]. rewrite H. reflexivity.
Qed.

Lemma video_validation_witness :
  (truthy (logoToAnimate init) = false \/ blank (animationPrompt init) = true) /\
  run ok_oracle (handleGenerateVideo init) init
    = (apply_action (SetError (Some "Please generate or upload a logo to animate.")) init,
       [TSet (SetError (Some "Please generate or upload a logo to animate."))]).
Proof.
  split; [left; reflexivity|].
  apply (video_validation init ok_oracle). left; reflexivity.
Defined.

(** ** The successful video path *)

(** X4: when the provider confirms a key and the video call returns
    [videoUrl], the run queries the provider, then calls
    [generateLogoVideo] once with the captured prompt, the part of
    [logoToAnimate] after its first comma and the captured aspect ratio;
    it ends with [generatedVideo = videoUrl], [error] cleared, [hasApiKey]
    true and the busy flag down. *)
Theorem video_success (s : state) (o : oracle) img videoUrl :
  logoToAnimate s = Some img -> img <> "" ->
  blank (animationPrompt s) = false ->
  o HasSelectedApiKey = inr true ->
  o (GenerateLogoVideo (animationPrompt s) (data_of_url img) (aspectRatio s))
    = inr videoUrl ->
  let '(s', t) := run o (handleGenerateVideo s) s in
  calls_of t = [HasSelectedApiKey;
                GenerateLogoVideo (animationPrompt s) (data_of_url img)
                  (aspectRatio s)] /\
  generatedVideo s' = Some videoUrl /\ error s' = None /\
  hasApiKey s' = true /\ isGeneratingVideo s' = false.
Proof.
  intros Hl Himg Hp Hk Hv.
  apply String.eqb_neq in Himg.
  unfold handleGenerateVideo. rewrite Hl, Himg, Hp. simpl. rewrite Hk.
  simpl. rewrite Hv. unfold apply_action; simpl.
  destruct (isGeneratingVideo s); repeat split.
Qed.

Lemma video_success_witness :
  (logoToAnimate ready = Some "data:image/jpeg;base64,P" /\
   "data:image/jpeg;base64,P" <> "" /\
   blank (animationPrompt ready) = false /\
   ok_oracle HasSelectedApiKey = inr true /\
   ok_oracle (GenerateLogoVideo (animationPrompt ready)
     (data_of_url "data:image/jpeg;base64,P") (aspectRatio ready)) = inr "V") /\
  let '(s', t) := run ok_oracle (handleGenerateVideo ready) ready in
  calls_of t = [HasSelectedApiKey;
                GenerateLogoVideo (animationPrompt ready)
                  (data_of_url "data:image/jpeg;base64,P") (aspectRatio ready)] /\
  generatedVideo s' = Some "V" /\ error s' = None /\
  hasApiKey s' = true /\ isGeneratingVideo s' = false.
Proof.
  split; [repeat split; try reflexivity; discriminate|].
  apply (video_success ready ok_oracle "data:image/jpeg;base64,P" "V");
    try reflexivity; discriminate.
Defined.

(** ** The payload sent to the video call *)

Lemma includes_cons_comma c s :
  includes (String c s) "," = (Ascii.eqb c "," || includes s ",")%bool.
Proof.
  cbn [includes prefix_of]. rewrite andb_true_r, Ascii.eqb_sym. reflexivity.
Qed.

Lemma split_comma_no_comma s :
  includes s "," = false -> split_comma s = [s].
Proof.
  induction s as [|c s IH]; [reflexivity|].
  rewrite includes_cons_comma. intros H.
  apply orb_false_iff in H as [H1 H2].
  cbn [split_comma]. rewrite IH by exact H2. rewrite H1. reflexivity.
Qed.

Lemma split_comma_app_comma p b :
  includes p "," = false -> includes b "," = false ->
  split_comma (p ++ "," ++ b) = [p; b].
Proof.
  intros Hp Hb. induction p as [|c p IH].
  - change ("" ++ "," ++ b) with (String "," b). cbn [split_comma].
    rewrite split_comma_no_comma by exact Hb. reflexivity.
  - change (String c p ++ "," ++ b) with (String c (p ++ "," ++ b)).
    cbn [split_comma].
    rewrite includes_cons_comma in Hp. apply orb_false_iff in Hp as [H1 H2].
    rewrite IH by exact H2. rewrite H1. reflexivity.
Qed.

(** X5: [logoToAnimate.split(',')[1]] recovers the payload of a data URL
    [header,payload] whose header and payload contain no comma. *)
Theorem data_of_url_payload header payload :
  includes header "," = false -> includes payload "," = false ->
  data_of_url (header ++ "," ++ payload) = Some payload.
Proof.
  intros Hh Hp. unfold data_of_url. rewrite split_comma_app_comma; auto.
Qed.

Lemma data_of_url_payload_witness :
  (includes "data:image/png;base64" "," = false /\
   includes "iVBORw0KGgo" "," = false) /\
  data_of_url ("data:image/png;base64" ++ "," ++ "iVBORw0KGgo")
    = Some "iVBORw0KGgo".
Proof.
  split; [split; reflexivity|].
  apply data_of_url_payload; reflexivity.
Defined.

(** X6: after a successful [handleGenerateLogo] that returned [imageB64]
    (base64, hence without a comma), the next [handleGenerateVideo]
    sends exactly [imageB64] to [generateLogoVideo]. *)
Theorem generated_logo_payload_reaches_video (s : state) (o : oracle)
  (imageB64 : string) :
  blank (logoPrompt s) = false ->
  o (GenerateLogoImage (logoPrompt s)) = inr imageB64 ->
  includes imageB64 "," = false ->
  let s1 := fst (run o (handleGenerateLogo s) s) in
  blank (animationPrompt s1) = false ->
  o HasSelectedApiKey = inr true ->
  In (TCall (GenerateLogoVideo (animationPrompt s1) (Some imageB64)
                (aspectRatio s1)))
     (snd (run o (handleGenerateVideo s1) s1)).
Proof.
  intros Hb Hi Hc s1 Hp Hk.
  assert (Hl : logoToAnimate s1
               = Some ("data:image/jpeg;base64" ++ "," ++ imageB64)).
  { subst s1. unfold handleGenerateLogo. rewrite Hb. simpl. rewrite Hi.
    reflexivity. }
  rewrite <- (data_of_url_payload "data:image/jpeg;base64" imageB64)
    by (reflexivity || exact Hc).
  set (url := "data:image/jpeg;base64" ++ "," ++ imageB64) in *.
  assert (Hu : String.eqb url "" = false) by (subst url; reflexivity).
  clearbody url.
  unfold handleGenerateVideo. rewrite Hl, Hu, Hp. simpl. rewrite Hk. simpl.
  match goal with
  | |- context [run o ?p ?s0] =>
      match p with
      | match _ with inl _ => _ | inr _ => _ end =>
          destruct (run o p s0) as [s' t]
      end
  end.
  simpl. do 5 right. left. reflexivity.
Qed.

Lemma generated_logo_payload_reaches_video_witness :
  let s := exec_event (EditLogoPrompt "red circle") init in
  (blank (logoPrompt s) = false /\
   ok_oracle (GenerateLogoImage (logoPrompt s)) = inr "P" /\
   includes "P" "," = false) /\
  let s1 := fst (run ok_oracle (handleGenerateLogo s) s) in
  (blank (animationPrompt s1) = false /\
   ok_oracle HasSelectedApiKey = inr true) /\
  In (TCall (GenerateLogoVideo (animationPrompt s1) (Some "P")
                (aspectRatio s1)))
     (snd (run ok_oracle (handleGenerateVideo s1) s1)).
Proof.
  intros s. split; [repeat split; reflexivity|].
  intros s1. split; [split; reflexivity|].
  apply (generated_logo_payload_reaches_video s ok_oracle "P"); reflexivity.
Defined.

(** ** The failed logo path *)

(** X7: when the image call rejects with [e], [handleGenerateLogo] leaves
    no logo, no animation input and no video (all cleared before the
    call), stores [e.message] (or ["Failed to generate logo."] when it is
    absent or empty) in [error], and ends with the busy flag down. *)
Theorem logo_failure (s : state) (o : oracle) e :
  blank (logoPrompt s) = false ->
  o (GenerateLogoImage (logoPrompt s)) = inl e ->
  let s' := fst (run o (handleGenerateLogo s) s) in
  generatedLogo s' = None /\ logoToAnimate s' = None /\
  generatedVideo s' = None /\
  error s' = Some (message_or e "Failed to generate logo.") /\
  isGeneratingLogo s' = false.
Proof.
  intros Hb Hi s'. subst s'. unfold handleGenerateLogo. rewrite Hb.
  simpl. rewrite Hi. repeat split.
Qed.

Lemma logo_failure_witness :
  (blank (logoPrompt init) = false /\
   image_fails None (GenerateLogoImage (logoPrompt init)) = inl None) /\
  let s' := fst (run (image_fails None) (handleGenerateLogo init) init) in
  generatedLogo s' = None /\ logoToAnimate s' = None /\
  generatedVideo s' = None /\
  error s' = Some (message_or None "Failed to generate logo.") /\
  isGeneratingLogo s' = false.
Proof.
  split; [split; reflexivity|].
  apply (logo_failure init (image_fails None) None); reflexivity.
Defined.

(** ** What each handler leaves alone *)

(** X8: [handleGenerateVideo], whatever its outcome, never changes the
    prompts, the aspect ratio, the generated logo, the animation input or
    the logo busy flag. *)
Theorem video_run_frame (s : state) (o : oracle) :
  let s' := fst (run o (handleGenerateVideo s) s) in
  logoPrompt s' = logoPrompt s /\ animationPrompt s' = animationPrompt s /\
  aspectRatio s' = aspectRatio s /\ generatedLogo s' = generatedLogo s /\
  logoToAnimate s' = logoToAnimate s /\
  isGeneratingLogo s' = isGeneratingLogo s.
Proof.
  intros s'. subst s'. unfold handleGenerateVideo, video_catch.
  destruct (isGeneratingVideo s) eqn:HV; run_cases; repeat split; auto.
Qed.

(** X9: [handleGenerateLogo], whatever its outcome, never changes the
    prompts, the aspect ratio, [hasApiKey] or the video busy flag and its
    timer. *)
Theorem logo_run_frame (s : state) (o : oracle) :
  let s' := fst (run o (handleGenerateLogo s) s) in
  logoPrompt s' = logoPrompt s /\ animationPrompt s' = animationPrompt s /\
  aspectRatio s' = aspectRatio s /\ hasApiKey s' = hasApiKey s /\
  isGeneratingVideo s' = isGeneratingVideo s /\ interval s' = interval s.
Proof.
  intros s'. subst s'. unfold handleGenerateLogo. run_cases; repeat split.
Qed.

(** ** [handleFileChange] when nothing is read *)

(** X10: with no file selected, [handleFileChange] does nothing; when the
    read fails, only [error] changes (to the read-failure message): the
    animation input and the video are kept. *)
Theorem file_change_no_effect (s : state) (o : oracle) (f : option file) :
  match f with
  | None => run o (handleFileChange f) s = (s, [])
  | Some fl =>
      match o (FileToBase64 fl) with
      | inl _ =>
          fst (run o (handleFileChange f) s)
            = apply_action (SetError (Some "Failed to read the uploaded file.")) s
      | inr _ => True
      end
  end.
Proof.
  destruct f as [fl|]; [|reflexivity].
  unfold handleFileChange. simpl.
  destruct (o (FileToBase64 fl)); simpl; [destruct s|]; reflexivity.
Qed.

(** ** Calls made by [handleGenerateLogo] *)

(** X11: [handleGenerateLogo] makes no call for a blank prompt and
    otherwise exactly one, [generateLogoImage] with the captured prompt;
    it never touches the credential provider or the video call. *)
Theorem logo_calls (s : state) (o : oracle) :
  calls_of (snd (run o (handleGenerateLogo s) s))
    = if blank (logoPrompt s) then [] else [GenerateLogoImage (logoPrompt s)].
Proof.
  unfold handleGenerateLogo. destruct (blank (logoPrompt s)); simpl;
    [reflexivity|].
  destruct (o (GenerateLogoImage (logoPrompt s))); reflexivity.
Qed.

(** ** The rotating message *)

Lemma next_message_in prev : In (next_message prev) videoLoadingMessages.
Proof.
  unfold next_message.
  destruct (index_of prev videoLoadingMessages) as [i|].
  - assert (H : (i + 1) mod length videoLoadingMessages < 6)
      by (apply Nat.mod_upper_bound; discriminate).
    destruct ((i + 1) mod length videoLoadingMessages)
      as [|[|[|[|[|[|k]]]]]]; simpl; try tauto; lia.
  - simpl. tauto.
Qed.

Lemma iter_next_message_in n m :
  In m videoLoadingMessages ->
  In (Nat.iter n next_message m) videoLoadingMessages.
Proof.
  intros H. destruct n as [|n]; [exact H|].
  rewrite Nat.iter_succ. apply next_message_in.
Qed.

(** X12: the interval's updater always yields one of the six messages
    (an unknown message restarts at the first), and six firings bring any
    of them back. *)
Theorem next_message_cycle prev :
  In (next_message prev) videoLoadingMessages /\
  (index_of prev videoLoadingMessages = None -> next_message prev = message_at 0) /\
  (In prev videoLoadingMessages -> Nat.iter 6 next_message prev = prev).
Proof.
  split; [apply next_message_in|]. split.
  - intros H. unfold next_message. rewrite H. reflexivity.
  - intros H. simpl in H.
    repeat (destruct H as [H|H]; [subst prev; reflexivity|]). contradiction.
Qed.

Lemma next_message_cycle_witness :
  (index_of "?" videoLoadingMessages = None ->
   next_message "?" = message_at 0) /\
  (In (message_at 3) videoLoadingMessages ->
   Nat.iter 6 next_message (message_at 3) = message_at 3).
Proof.
  split; intros H.
  - apply (next_message_cycle "?"). exact H.
  - apply (next_message_cycle (message_at 3)). exact H.
Defined.


(** ** Calls made by [handleGenerateVideo] *)

(** X14: the calls of any run of [handleGenerateVideo] are a prefix of:
    the credential query, then one [generateLogoVideo] with the captured
    prompt, payload and aspect ratio; it never calls the image generator,
    never reads a file and never dispatches the video call before the
    query. *)
Theorem video_calls (s : state) (o : oracle) :
  exists n,
    calls_of (snd (run o (handleGenerateVideo s) s))
    = firstn n (match logoToAnimate s with
                | Some img =>
                    [HasSelectedApiKey;
                     GenerateLogoVideo (animationPrompt s) (data_of_url img)
                       (aspectRatio s)]
                | None => []
                end).
Proof.
  unfold handleGenerateVideo, video_catch.
  destruct (isGeneratingVideo s) eqn:HV; run_cases;
    first [exists 0; reflexivity | exists 1; reflexivity
          | exists 2; reflexivity].
Qed.

(** Running a pending handler at the head, completely or for [n] steps,
    is a sequence of interleaved steps. *)
Lemma live_run (o : oracle) p s ps :
  live s (p :: ps) -> live (fst (run o p s)) ps.
Proof.
  revert s. induction p as [| a k IH | c k IH]; intros s H; simpl.
  - exact (live_ret s [] ps H).
  - destruct (run o k (apply_action a s)) as [s' t] eqn:E.
    specialize (IH (apply_action a s) (live_do s [] ps a k H)).
    rewrite E in IH. exact IH.
  - destruct (run o (k (o c)) s) as [s' t] eqn:E.
    specialize (IH (o c) s (live_await s [] ps c k (o c) H)).
    rewrite E in IH. exact IH.
Qed.

Lemma live_run_steps n (o : oracle) p s ps :
  live s (p :: ps) ->
  live (fst (run_steps n o p s)) (snd (run_steps n o p s) :: ps).
Proof.
  revert p s. induction n as [|n IH]; intros p s H; [exact H|].
  destruct p as [| a k | c k]; simpl.
  - exact H.
  - apply IH. exact (live_do s [] ps a k H).
  - apply IH. exact (live_await s [] ps c k (o c) H).
Qed.

(** X13: in every state of the session, including those where handlers
    are still pending and the interval fires while a video is being
    generated, the loading message is one of the six messages. *)
Theorem live_message_in_list s ps :
  live s ps -> In (videoLoadingMessage s) videoLoadingMessages.
Proof.
  induction 1 as [| s ps p _ _ IH | s ps a _ _ IH | s pre post a k _ IH
                 | s pre post c k r _ IH | s pre post _ IH | s ps d _ IH];
    try exact IH.
  - simpl. tauto.
  - rewrite apply_action_message. exact IH.
  - rewrite apply_action_message. exact IH.
  - unfold elapse. cbn [videoLoadingMessage].
    destruct (interval s); [apply iter_next_message_in|]; exact IH.
Qed.

Lemma live_message_in_list_witness :
  live mid_generation [snd first_generation] /\
  isGeneratingVideo mid_generation = true /\
  videoLoadingMessage mid_generation = message_at 2 /\
  In (videoLoadingMessage mid_generation) videoLoadingMessages.
Proof.
  assert (H0 : live init [handleGenerateLogo init])
    by (apply live_start; [constructor | apply live_init]).
  assert (H1 : live ready []) by exact (live_run ok_oracle _ _ [] H0).
  assert (H2 : live ready [handleGenerateVideo ready])
    by (apply live_start; [constructor | exact H1]).
  assert (H3 : live mid_generation [snd first_generation])
    by (apply live_elapse; exact (live_run_steps 5 ok_oracle _ _ [] H2)).
  split; [exact H3|].
  split; [vm_compute; reflexivity|].
  split; [vm_compute; reflexivity|].
  apply (live_message_in_list mid_generation [snd first_generation] H3).
Defined.
